(** * Kimera-VIO: optical-flow predictors and loop-closure candidate model

    Shallow embedding of
    - [include/kimera-vio/frontend/Tracker.h]
      (SillyOpticalFlowPredictor, RotationalOpticalFlowPredictor and the
       declaration of Tracker::removeOutliersMono), and
    - [src/loopclosure/LoopClosureDetector-definitions.h]
      (LCDStatus, MatchIsland, LoopResult),
    followed by the properties established about them.

    - [IEEE]: floating-point comparison;
    - [LCD]: the loop-closure data model;
    - [Flow]: the two predictors, over an interface for [float] arithmetic;
    - [Single], [Exact]: that arithmetic in IEEE single precision and over
      the rationals;
    - [Tracker]: removal of outliers;
    - [IEEEFacts], [LCDFacts], [FlowFacts], [TrackerFacts]: the properties. *)

From Stdlib Require Import ZArith List Bool Lia.
From Stdlib Require Import QArith Qcanon Field.
From Stdlib Require Import Floats.SpecFloat.
From Stdlib Require Strings.String.
From stdpp Require Import base tactics option list.

(** ** IEEE-754 values

    C++ [double] and [float] are modelled by the standard library's
    [spec_float] (sign, mantissa, exponent, with zeros, infinities and a
    single NaN).  The relational operators of C++ are those of IEEE-754:
    every comparison with NaN is false. *)

Module IEEE.

Definition double := spec_float.

(** [x < y] on floating-point values. *)
Definition ltb (x y : spec_float) : bool := SFltb x y.

(** [x > y] on floating-point values. *)
Definition gtb (x y : spec_float) : bool :=
  match SFcompare x y with
  | Some Gt => true
  | _ => false
  end.

Definition is_nan (x : spec_float) : bool :=
  match x with
  | S754_nan => true
  | _ => false
  end.

(** The literal [0] converted to a floating-point value. *)
Definition zero : spec_float := S754_zero false.

(** The integer [n] as a [double], and the NaN, for concrete scores. *)
Definition double_of_Z (n : Z) : double := binary_normalize 53 1024 n 0 false.
Definition nan : double := S754_nan.

(** The outcome of comparing in the other direction. *)
Definition option_opp (c : option comparison) : option comparison :=
  match c with
  | Some c => Some (CompOpp c)
  | None => None
  end.

End IEEE.

(** ** LoopClosureDetector-definitions.h *)

Module LCD.

Local Open Scope Z_scope.

(** [enum class LCDStatus : int], in declaration order. *)
Inductive LCDStatus : Set :=
  | LOOP_DETECTED
  | NO_MATCHES
  | LOW_NSS_FACTOR
  | LOW_SCORE
  | NO_GROUPS
  | FAILED_TEMPORAL_CONSTRAINT
  | FAILED_GEOM_VERIFICATION
  | FAILED_POSE_RECOVERY.

(** The underlying [int] of each enumerator: without initialisers they
    are numbered from zero in declaration order. *)
Definition LCDStatus_value (s : LCDStatus) : Z :=
  match s with
  | LOOP_DETECTED => 0
  | NO_MATCHES => 1
  | LOW_NSS_FACTOR => 2
  | LOW_SCORE => 3
  | NO_GROUPS => 4
  | FAILED_TEMPORAL_CONSTRAINT => 5
  | FAILED_GEOM_VERIFICATION => 6
  | FAILED_POSE_RECOVERY => 7
  end.

(** [operator==] on a scoped enumeration compares the underlying values. *)
Definition LCDStatus_eqb (a b : LCDStatus) : bool :=
  LCDStatus_value a =? LCDStatus_value b.

Definition all_LCDStatus : list LCDStatus :=
  [LOOP_DETECTED; NO_MATCHES; LOW_NSS_FACTOR; LOW_SCORE; NO_GROUPS;
   FAILED_TEMPORAL_CONSTRAINT; FAILED_GEOM_VERIFICATION; FAILED_POSE_RECOVERY].

(** [FrameId] is declared in [common/vio_types.h], which this header
    includes; it is the project's [std::uint64_t], and [size_t] has the
    same width on the 64-bit targets the project builds for.  Both are
    integers modulo [2^64]. *)
Definition uint64_modulus : Z := 2 ^ 64.
Definition FrameId := Z.
Definition FrameId_ok (x : FrameId) : Prop := 0 <= x < uint64_modulus.
Definition wrap64 (x : Z) : Z := x mod uint64_modulus.

(** [struct LoopResult]; the pose is carried opaquely. *)
Record LoopResult (Pose3 : Type) := mkLoopResult {
  status_ : LCDStatus;
  query_id_ : FrameId;
  match_id_ : FrameId;
  relative_pose_ : Pose3
}.
Arguments mkLoopResult {Pose3}.
Arguments status_ {Pose3}.
Arguments query_id_ {Pose3}.
Arguments match_id_ {Pose3}.
Arguments relative_pose_ {Pose3}.

(** [inline bool isLoop() const { return status_ == LCDStatus::LOOP_DETECTED; }] *)
Definition isLoop {Pose3} (r : LoopResult Pose3) : bool :=
  LCDStatus_eqb (status_ r) LOOP_DETECTED.

(** [struct MatchIsland]. *)
Record MatchIsland := mkMatchIsland {
  start_id_ : FrameId;
  end_id_ : FrameId;
  island_score_ : IEEE.double;
  best_id_ : FrameId;
  best_score_ : IEEE.double
}.

(** [MatchIsland()] *)
Definition MatchIsland_default : MatchIsland :=
  {| start_id_ := 0; end_id_ := 0; island_score_ := IEEE.zero;
     best_id_ := 0; best_score_ := IEEE.zero |}.

(** [MatchIsland(const FrameId& start, const FrameId& end)] *)
Definition MatchIsland_range (start end_ : FrameId) : MatchIsland :=
  {| start_id_ := start; end_id_ := end_; island_score_ := IEEE.zero;
     best_id_ := 0; best_score_ := IEEE.zero |}.

(** [MatchIsland(const FrameId& start, const FrameId& end, const double& score)] *)
Definition MatchIsland_scored (start end_ : FrameId) (score : IEEE.double)
  : MatchIsland :=
  {| start_id_ := start; end_id_ := end_; island_score_ := score;
     best_id_ := 0; best_score_ := IEEE.zero |}.

(** [operator<] *)
Definition lt (a other : MatchIsland) : bool :=
  IEEE.ltb (island_score_ a) (island_score_ other).

(** [operator>] *)
Definition gt (a other : MatchIsland) : bool :=
  IEEE.gtb (island_score_ a) (island_score_ other).

(** [size_t size() const { return end_id_ - start_id_ + 1; }]
    evaluated in unsigned 64-bit arithmetic. *)
Definition size (m : MatchIsland) : Z :=
  wrap64 (wrap64 (end_id_ m - start_id_ m) + 1).

(** [void clear()] *)
Definition clear (m : MatchIsland) : MatchIsland :=
  {| start_id_ := 0; end_id_ := 0; island_score_ := IEEE.zero;
     best_id_ := 0; best_score_ := IEEE.zero |}.

(** The islands a program obtains from the three constructors and
    [clear()], the arguments being values of type [FrameId]. *)
Inductive reachable : MatchIsland -> Prop :=
  | reach_default : reachable MatchIsland_default
  | reach_range start end_ :
      FrameId_ok start -> FrameId_ok end_ ->
      reachable (MatchIsland_range start end_)
  | reach_scored start end_ score :
      FrameId_ok start -> FrameId_ok end_ ->
      reachable (MatchIsland_scored start end_ score)
  | reach_clear m : reachable m -> reachable (clear m).

(** Relations on islands induced by the comparison operators. *)
Definition incomparable (a b : MatchIsland) : Prop :=
  lt a b = false /\ lt b a = false.

Definition irreflexive_lt : Prop := forall a, lt a a = false.
Definition asymmetric_lt : Prop := forall a b, lt a b = true -> lt b a = false.
Definition transitive_lt : Prop :=
  forall a b c, lt a b = true -> lt b c = true -> lt a c = true.
Definition converse_lt_gt : Prop := forall a b, lt a b = gt b a.
Definition transitive_incomparable : Prop :=
  forall a b c, incomparable a b -> incomparable b c -> incomparable a c.

(** A strict weak order: a strict partial order whose incomparability
    relation is transitive, which is what sorting and picking a maximum
    by [<] rely on. *)
Definition strict_weak_order : Prop :=
  irreflexive_lt /\ asymmetric_lt /\ transitive_lt /\ transitive_incomparable.

Definition score_not_nan (m : MatchIsland) : Prop :=
  IEEE.is_nan (island_score_ m) = false.

(** Islands with scores 1, NaN and 2, and two more with score 1. *)
Definition island_one : MatchIsland := MatchIsland_scored 0 0 (IEEE.double_of_Z 1).
Definition island_nan : MatchIsland := MatchIsland_scored 0 0 IEEE.nan.
Definition island_two : MatchIsland := MatchIsland_scored 0 0 (IEEE.double_of_Z 2).
Definition island_one_b : MatchIsland := MatchIsland_scored 4 9 (IEEE.double_of_Z 1).
Definition island_one_c : MatchIsland := MatchIsland_scored 12 12 (IEEE.double_of_Z 1).

(** [static std::string asString(const LCDStatus& status)]: the string
    starts empty and a [switch] without [default] assigns the name of the
    enumerator whose value [status] holds.  An [LCDStatus] object can hold
    any [int]; [asString_value] is the function on that underlying value. *)
Import Stdlib.Strings.String.

Definition asString_value (status : Z) : String.string :=
  if status =? LCDStatus_value LOOP_DETECTED then "LOOP_DETECTED"%string
  else if status =? LCDStatus_value NO_MATCHES then "NO_MATCHES"%string
  else if status =? LCDStatus_value LOW_NSS_FACTOR then "LOW_NSS_FACTOR"%string
  else if status =? LCDStatus_value LOW_SCORE then "LOW_SCORE"%string
  else if status =? LCDStatus_value NO_GROUPS then "NO_GROUPS"%string
  else if status =? LCDStatus_value FAILED_TEMPORAL_CONSTRAINT
    then "FAILED_TEMPORAL_CONSTRAINT"%string
  else if status =? LCDStatus_value FAILED_GEOM_VERIFICATION
    then "FAILED_GEOM_VERIFICATION"%string
  else if status =? LCDStatus_value FAILED_POSE_RECOVERY
    then "FAILED_POSE_RECOVERY"%string
  else String.EmptyString.

Definition asString (status : LCDStatus) : String.string :=
  asString_value (LCDStatus_value status).

End LCD.

(** ** Tracker.h: optical-flow predictors *)

Module Flow.

(** The arithmetic of [float] as the predictor uses it: the literals [0]
    and [1.0f], [+], [*], [/] and the comparison [>].  The predictor is
    written once over this interface; [binary32] below is IEEE-754 single
    precision. *)
Class Scalar (F : Type) := {
  s_zero : F;
  s_one : F;
  s_add : F -> F -> F;
  s_mul : F -> F -> F;
  s_div : F -> F -> F;
  s_gtb : F -> F -> bool
}.

Definition float := spec_float.

#[export] Instance binary32 : Scalar float := {|
  s_zero := S754_zero false;
  s_one := SFone 24 128;
  s_add := SFadd 24 128;
  s_mul := SFmul 24 128;
  s_div := SFdiv 24 128;
  s_gtb := IEEE.gtb
|}.

(** What a call can end in: a value, a failed [CHECK_NOTNULL] (the process
    is aborted), or the [std::out_of_range] of [std::vector::at]. *)
Inductive result (A : Type) : Type :=
  | Returned (a : A)
  | CheckFailed
  | OutOfRange.
Arguments Returned {A} a.
Arguments CheckFailed {A}.
Arguments OutOfRange {A}.

(** The out-parameter [KeypointsCV* next_kps] as a caller can pass it: a
    null pointer, a pointer to a vector other than [prev_kps] (with what
    that vector holds), or a pointer to [prev_kps] itself. *)
Inductive out_param (V : Type) : Type :=
  | NullPtr
  | PtrTo (v : V)
  | PtrToPrev.
Arguments NullPtr {V}.
Arguments PtrTo {V} v.
Arguments PtrToPrev {V}.

Section Predictors.

Context {F : Type} `{Scalar F}.

(** [cv::Point2f] and [KeypointsCV = std::vector<cv::Point2f>]. *)
Record Point2f := mkPoint2f { x : F; y : F }.
Definition KeypointsCV := list Point2f.

(** [cv::Vec3f] and [cv::Matx33f] (rows of three entries). *)
Record Vec3f := mkVec3f { v0 : F; v1 : F; v2 : F }.
Record Matx33f := mkMatx33f { row0 : Vec3f; row1 : Vec3f; row2 : Vec3f }.

Definition col0 (m : Matx33f) := mkVec3f (v0 (row0 m)) (v0 (row1 m)) (v0 (row2 m)).
Definition col1 (m : Matx33f) := mkVec3f (v1 (row0 m)) (v1 (row1 m)) (v1 (row2 m)).
Definition col2 (m : Matx33f) := mkVec3f (v2 (row0 m)) (v2 (row1 m)) (v2 (row2 m)).

(** One entry of a [cv::Matx] product: [s = 0; s += a(i,k) * b(k,j)] for
    [k = 0, 1, 2]. *)
Definition dot3 (a b : Vec3f) : F :=
  s_add (s_add (s_add s_zero (s_mul (v0 a) (v0 b))) (s_mul (v1 a) (v1 b)))
        (s_mul (v2 a) (v2 b)).

(** [cv::Matx33f::eye()] *)
Definition Matx_eye : Matx33f :=
  mkMatx33f (mkVec3f s_one s_zero s_zero) (mkVec3f s_zero s_one s_zero)
            (mkVec3f s_zero s_zero s_one).

(** [cv::Matx33f * cv::Vec3f] *)
Definition Matx_mul_Vec (m : Matx33f) (p : Vec3f) : Vec3f :=
  mkVec3f (dot3 (row0 m) p) (dot3 (row1 m) p) (dot3 (row2 m) p).

(** [cv::Matx33f * cv::Matx33f] *)
Definition Matx_mul (a b : Matx33f) : Matx33f :=
  let r (u : Vec3f) := mkVec3f (dot3 u (col0 b)) (dot3 u (col1 b)) (dot3 u (col2 b)) in
  mkMatx33f (r (row0 a)) (r (row1 a)) (r (row2 a)).

(** [std::vector]: [clear()], [resize(n)] with value-initialised new
    elements, and the checked assignment [v.at(i) = e]. *)
Definition vector_clear {A} (v : list A) : list A := [].

Definition vector_resize {A} (d : A) (n : nat) (v : list A) : list A :=
  take n v ++ replicate (n - length v) d.

Definition vector_at_assign {A} (v : list A) (i : nat) (e : A) : option (list A) :=
  if decide (i < length v) then Some (<[i := e]> v) else None.

(** *** SillyOpticalFlowPredictor

    Assigning [prev_kps] to itself leaves it unchanged.
<<
    *CHECK_NOTNULL(next_kps) = prev_kps;
    return true;
>> *)
Definition Silly_predictFlow (prev_kps : KeypointsCV) (next_kps : out_param KeypointsCV)
  : result (KeypointsCV * bool) :=
  match next_kps with
  | NullPtr => CheckFailed
  | PtrTo _ | PtrToPrev => Returned (prev_kps, true)
  end.

(** *** RotationalOpticalFlowPredictor

    [gtsam::Rot3] belongs to GTSAM: rotations are an abstract type [Rot3],
    and [Rot3_to_cv r] stands for
    [UtilsOpenCV::gtsamMatrix3ToCvMat(r.matrix())].  [Matx_inv] stands for
    [cv::Matx33f::inv()] and [Rot3_default] for the default-constructed
    rotation. *)
Context {Rot3 : Type}.
Variable Rot3_to_cv : Rot3 -> Matx33f.
Variable Rot3_default : Rot3.
Variable Matx_inv : Matx33f -> Matx33f.

Record RotationalOpticalFlowPredictor := mkRotational {
  K_ : Matx33f;
  K_inverse_ : Matx33f;
  inter_frame_rotation_ : Rot3
}.

(** [RotationalOpticalFlowPredictor(const cv::Matx33f& K) : K_(K), K_inverse_(K.inv()) {}] *)
Definition Rotational_new (K : Matx33f) : RotationalOpticalFlowPredictor :=
  {| K_ := K; K_inverse_ := Matx_inv K; inter_frame_rotation_ := Rot3_default |}.

(**
<<
    inline bool updateInterFrameRotation(const gtsam::Rot3& rotation) {
      inter_frame_rotation_ = rotation;
    }
>>
    The member is assigned and control reaches the closing brace: no
    [return] statement is executed, so the call produces no value of its
    declared type [bool].  The second component is the returned value, if
    any. *)
Definition updateInterFrameRotation
    (self : RotationalOpticalFlowPredictor) (rotation : Rot3)
  : RotationalOpticalFlowPredictor * option bool :=
  ({| K_ := K_ self; K_inverse_ := K_inverse_ self;
      inter_frame_rotation_ := rotation |},
   None).

(** [cv::Matx33f H = K_ * R * K_inverse_;] *)
Definition homography (self : RotationalOpticalFlowPredictor) : Matx33f :=
  let R := Rot3_to_cv (inter_frame_rotation_ self) in
  Matx_mul (Matx_mul (K_ self) R) (K_inverse_ self).

(** [cv::Vec3f p1(prev_kps[i].x, prev_kps[i].y, 1.0f);] *)
Definition lift (kp : Point2f) : Vec3f := mkVec3f (x kp) (y kp) s_one.

(** The body of the loop for one keypoint: the value assigned to
    [next_kps->at(i)]. *)
Definition predict_keypoint (H : Matx33f) (kp : Point2f) : Point2f :=
  let p1 := lift kp in
  let p2 := Matx_mul_Vec H p1 in
  if s_gtb (v2 p2) s_zero
  then mkPoint2f (s_div (v0 p2) (v2 p2)) (s_div (v1 p2) (v2 p2))
  else kp.

(** [for (size_t i = 0; i < n_kps; ++i) { ... next_kps->at(i) = ...; }]
    with [steps] iterations left to run from index [i].  [prev_kps[i]] is
    unchecked in the source; here an index past the end of [prev_kps]
    ends the call like one past the end of [*next_kps]. *)
Fixpoint predictFlow_loop (H : Matx33f) (prev_kps : KeypointsCV)
    (steps i : nat) (next_kps : KeypointsCV) : result KeypointsCV :=
  match steps with
  | O => Returned next_kps
  | S steps' =>
      match prev_kps !! i with
      | None => OutOfRange
      | Some kp =>
          match vector_at_assign next_kps i (predict_keypoint H kp) with
          | None => OutOfRange
          | Some next_kps' => predictFlow_loop H prev_kps steps' (S i) next_kps'
          end
      end
  end.

(** [predictFlow] after [CHECK_NOTNULL(next_kps)->clear()], on what
    [prev_kps] and [*next_kps] hold then. *)
Definition predictFlow_cleared (self : RotationalOpticalFlowPredictor)
    (prev_kps next : KeypointsCV) : result (KeypointsCV * bool) :=
  let H := homography self in
  let n_kps := length prev_kps in
  let next := vector_resize (mkPoint2f s_zero s_zero) n_kps next in
  match predictFlow_loop H prev_kps n_kps 0 next with
  | Returned next => Returned (next, true)
  | CheckFailed => CheckFailed
  | OutOfRange => OutOfRange
  end.

(** [bool predictFlow(const KeypointsCV& prev_kps, KeypointsCV* next_kps)].
    When [next_kps] points to [prev_kps], [clear()] empties the one vector
    both names denote, [n_kps] is zero and the loop body does not run. *)
Definition Rotational_predictFlow (self : RotationalOpticalFlowPredictor)
    (prev_kps : KeypointsCV) (next_kps : out_param KeypointsCV)
  : result (KeypointsCV * bool) :=
  match next_kps with
  | NullPtr => CheckFailed
  | PtrTo next => predictFlow_cleared self prev_kps (vector_clear next)
  | PtrToPrev =>
      predictFlow_cleared self (vector_clear prev_kps) (vector_clear prev_kps)
  end.

(** A client's calls on one rotational predictor, and the predictor after
    a sequence of them: [Some self] while the behaviour of the program is
    defined, [None] once it is not.  [predictFlow] assigns no member.  A
    call of [updateInterFrameRotation] that comes back with a value leaves
    the predictor its body wrote; one that reaches the end of the function
    without a [return] has undefined behaviour (the function is declared
    to return [bool]), and nothing is known of the predictor, or of any
    later call, from then on. *)
Inductive call : Type :=
  | CallUpdate (rotation : Rot3)
  | CallPredict (prev_kps : KeypointsCV) (next_kps : out_param KeypointsCV).

Definition after_call (state : option RotationalOpticalFlowPredictor) (c : call)
  : option RotationalOpticalFlowPredictor :=
  match state with
  | None => None
  | Some self =>
      match c with
      | CallUpdate rotation =>
          match updateInterFrameRotation self rotation with
          | (self', Some _) => Some self'
          | (_, None) => None
          end
      | CallPredict _ _ => Some self
      end
  end.

Definition after_calls (state : option RotationalOpticalFlowPredictor)
    (cs : list call) : option RotationalOpticalFlowPredictor :=
  fold_left after_call cs state.

(** *** OpticalFlowPredictor and its factory

    An object behind [OpticalFlowPredictor::UniquePtr] is of one of the two
    derived classes, and the virtual [predictFlow] is the override of that
    class. *)
Inductive OpticalFlowPredictor : Type :=
  | SillyPredictor
  | RotationalPredictor (self : RotationalOpticalFlowPredictor).

Definition virtual_predictFlow (p : OpticalFlowPredictor)
    (prev_kps : KeypointsCV) (next_kps : out_param KeypointsCV)
  : result (KeypointsCV * bool) :=
  match p with
  | SillyPredictor => Silly_predictFlow prev_kps next_kps
  | RotationalPredictor self => Rotational_predictFlow self prev_kps next_kps
  end.

(** What a predictor does to one keypoint. *)
Definition predict_with (p : OpticalFlowPredictor) (kp : Point2f) : Point2f :=
  match p with
  | SillyPredictor => kp
  | RotationalPredictor self => predict_keypoint (homography self) kp
  end.

(** [enum class OpticalFlowPredictorType { kStatic = 0, kRotational = 1 }],
    by underlying value: the factory has a [default] case for any other. *)
Definition kStatic : Z := 0.
Definition kRotational : Z := 1.

(** [OpticalFlowPredictorFactory::makeOpticalFlowPredictor], the forwarded
    arguments being the camera matrix the rotational predictor is
    constructed from.  [None] is the [LOG(FATAL)] of the [default] case,
    which ends the process. *)
Definition makeOpticalFlowPredictor (optical_flow_predictor_type : Z) (K : Matx33f)
  : option OpticalFlowPredictor :=
  if (optical_flow_predictor_type =? kStatic)%Z then Some SillyPredictor
  else if (optical_flow_predictor_type =? kRotational)%Z
    then Some (RotationalPredictor (Rotational_new K))
  else None.

End Predictors.

Arguments Point2f F : clear implicits.
Arguments Vec3f F : clear implicits.
Arguments Matx33f F : clear implicits.
Arguments KeypointsCV F : clear implicits.
Arguments RotationalOpticalFlowPredictor F Rot3 : clear implicits.
Arguments call F Rot3 : clear implicits.
Arguments OpticalFlowPredictor F Rot3 : clear implicits.

End Flow.

(** ** Single-precision instance of the rotational predictor

    The collaborators the header takes from OpenCV and GTSAM, written out
    for IEEE-754 single precision so that the predictor can be run on
    concrete camera matrices. *)

Module Single.

Import Flow.

Local Open Scope Z_scope.

Definition fadd := SFadd 24 128.
Definition fsub := SFsub 24 128.
Definition fmul := SFmul 24 128.
Definition fdiv := SFdiv 24 128.
Definition fzero : float := S754_zero false.
Definition fone : float := SFone 24 128.

(** The integer [n] and the quotient [a / b] of two integers as [float]s
    (rounded to nearest, as a decimal literal is). *)
Definition of_Z (n : Z) : float := binary_normalize 24 128 n 0 false.
Definition ratio (a b : Z) : float := fdiv (of_Z a) (of_Z b).

Definition Vec (a b c : float) : Vec3f float := mkVec3f a b c.
Definition Matx (a b c d e f g h i : float) : Matx33f float :=
  mkMatx33f (Vec a b c) (Vec d e f) (Vec g h i).

Definition Matx_zeros : Matx33f float :=
  Matx fzero fzero fzero fzero fzero fzero fzero fzero fzero.

(** [a(i, j)] *)
Definition at_ (a : Matx33f float) (i j : nat) : float :=
  let r := match i with O => row0 a | S O => row1 a | _ => row2 a end in
  match j with O => v0 r | S O => v1 r | _ => v2 r end.

(** [cv::determinant] of a 3x3 [Matx] (cofactor expansion along the first
    row, OpenCV's [Matx_DetOp<_Tp, 3>]). *)
Definition determinant (a : Matx33f float) : float :=
  fadd
    (fsub
       (fmul (at_ a 0 0) (fsub (fmul (at_ a 1 1) (at_ a 2 2)) (fmul (at_ a 2 1) (at_ a 1 2))))
       (fmul (at_ a 0 1) (fsub (fmul (at_ a 1 0) (at_ a 2 2)) (fmul (at_ a 2 0) (at_ a 1 2)))))
    (fmul (at_ a 0 2) (fsub (fmul (at_ a 1 0) (at_ a 2 1)) (fmul (at_ a 2 0) (at_ a 1 1)))).

(** [cv::Matx33f::inv()]: OpenCV's closed form for 3x3 matrices
    ([Matx_FastInvOp<_Tp, 3, 3>]): the adjugate scaled by [1 / det], and
    the zero matrix when the determinant is zero. *)
Definition Matx_inv (a : Matx33f float) : Matx33f float :=
  let d := determinant a in
  if SFeqb d fzero then Matx_zeros
  else
    let d := fdiv fone d in
    let adj (i1 j1 i2 j2 i3 j3 i4 j4 : nat) :=
      fmul (fsub (fmul (at_ a i1 j1) (at_ a i2 j2)) (fmul (at_ a i3 j3) (at_ a i4 j4))) d in
    (Matx (adj 1 1 2 2 1 2 2 1) (adj 0 2 2 1 0 1 2 2) (adj 0 1 1 2 0 2 1 1)
          (adj 1 2 2 0 1 0 2 2) (adj 0 0 2 2 0 2 2 0) (adj 0 2 1 0 0 0 1 2)
          (adj 1 0 2 1 1 1 2 0) (adj 0 1 2 0 0 0 2 1) (adj 0 0 1 1 0 1 1 0))%nat.

(** [gtsam::Rot3] as its 3x3 matrix of [double]s; [Rot3_to_cv] converts
    each entry to [float] (round to nearest). *)
Definition Rot3 := Matx33f IEEE.double.

Definition to_float (d : IEEE.double) : float :=
  match d with
  | S754_finite s m e => binary_round 24 128 s m e
  | _ => d
  end.

Definition Rot3_to_cv (r : Rot3) : Matx33f float :=
  let c (u : Vec3f IEEE.double) := Vec (to_float (v0 u)) (to_float (v1 u)) (to_float (v2 u)) in
  mkMatx33f (c (row0 r)) (c (row1 r)) (c (row2 r)).

Definition d_one : IEEE.double := SFone 53 1024.
Definition dzero : IEEE.double := S754_zero false.

(** [gtsam::Rot3()], the identity rotation. *)
Definition Rot3_identity : Rot3 :=
  mkMatx33f (mkVec3f d_one dzero dzero) (mkVec3f dzero d_one dzero)
            (mkVec3f dzero dzero d_one).

(** The rotation matrix with the given integer entries, row by row. *)
Definition Rot3_of_Z (a b c d e f g h i : Z) : Rot3 :=
  let z := IEEE.double_of_Z in
  mkMatx33f (mkVec3f (z a) (z b) (z c)) (mkVec3f (z d) (z e) (z f))
            (mkVec3f (z g) (z h) (z i)).

(** A quarter turn about the optical axis and a half turn about the
    vertical axis. *)
Definition quarter_turn_z : Rot3 := Rot3_of_Z 0 (-1) 0 1 0 0 0 0 1.
Definition half_turn_y : Rot3 := Rot3_of_Z (-1) 0 0 0 1 0 0 0 (-1).

Definition Predictor := RotationalOpticalFlowPredictor float Rot3.

Definition new (K : Matx33f float) : Predictor :=
  Rotational_new Rot3_identity Matx_inv K.

Definition predictFlow (self : Predictor) := Rotational_predictFlow Rot3_to_cv self.

(** A pinhole camera matrix [[fx 0 cx; 0 fy cy; 0 0 1]]. *)
Definition pinhole (fx fy cx cy : float) : Matx33f float :=
  Matx fx fzero cx fzero fy cy fzero fzero fone.

(** Intrinsics of the EuRoC data set's left camera, on which the pipeline
    is run: fx = 458.654, fy = 457.296, cx = 367.215, cy = 248.375. *)
Definition K_euroc : Matx33f float :=
  pinhole (ratio 458654 1000) (ratio 457296 1000) (ratio 367215 1000) (ratio 248375 1000).

(** Intrinsics whose inverse is exactly representable:
    fx = fy = 2, cx = cy = 4. *)
Definition K_dyadic : Matx33f float :=
  pinhole (of_Z 2) (of_Z 2) (of_Z 4) (of_Z 4).

Definition kp (a b : Z) : Point2f float := mkPoint2f (of_Z a) (of_Z b).

(** The predictor with the identity rotation stored, as the body of
    [updateInterFrameRotation] stores it; a freshly constructed predictor
    is one, the default rotation being the identity. *)
Definition with_identity (self : Predictor) : Predictor :=
  fst (updateInterFrameRotation self Rot3_identity).

(** The inverse of a pinhole matrix with every entry rounded to the
    nearest [float]: [[1/fx 0 -cx/fx; 0 1/fy -cy/fy; 0 0 1]]. *)
Definition pinhole_inverse_nearest (K : Matx33f float) : Matx33f float :=
  let fx := at_ K 0 0 in let fy := at_ K 1 1 in
  let cx := at_ K 0 2 in let cy := at_ K 1 2 in
  Matx (fdiv fone fx) fzero (SFopp (fdiv cx fx))
       fzero (fdiv fone fy) (SFopp (fdiv cy fy))
       fzero fzero fone.

(** A [float] with the one below it and the one above it. *)
Definition neighbours (v : float) : list float :=
  [SFpred 24 128 v; v; SFsucc 24 128 v].

(** The [x] coordinate predicted for the keypoint (100, 200) under the
    identity rotation, when the stored inverse of [K] is [K_inverse]. *)
Definition predicted_x_of_100 (K K_inverse : Matx33f float) : option float :=
  match predictFlow (mkRotational K K_inverse Rot3_identity) [kp 100 200] (PtrTo []) with
  | Returned ([p], _) => Some (x p)
  | _ => None
  end.

(** Whether the keypoint (100, 200) is moved in [x] for every inverse of
    the pinhole matrix [K] whose entries [1/fx] and [-cx/fx] are within
    one unit in the last place of the nearest [float]. *)
Definition moved_for_all_nearby_inverses (K : Matx33f float) : bool :=
  let N := pinhole_inverse_nearest K in
  forallb (fun m00 =>
    forallb (fun m02 =>
      match predicted_x_of_100 K
              (Matx m00 fzero m02 (at_ N 1 0) (at_ N 1 1) (at_ N 1 2) fzero fzero fone) with
      | Some v => negb (SFeqb v (of_Z 100))
      | None => false
      end)
      (neighbours (at_ N 0 2)))
    (neighbours (at_ N 0 0)).

(** A zero of either sign or the NaN, and a keypoint with a NaN
    coordinate. *)
Definition zero_or_nan (v : float) : bool :=
  match v with
  | S754_zero _ | S754_nan => true
  | _ => false
  end.

Definition has_nan (p : Point2f float) : bool :=
  IEEE.is_nan (x p) || IEEE.is_nan (y p).

(** 100.0000153 and 99.9999924: the [float]s two units in the last place
    above 100 and one below it. *)
Definition above_100 : float := S754_finite false 13107202 (-17).
Definition below_100 : float := S754_finite false 13107199 (-17).

End Single.

(** ** The rotational predictor in exact arithmetic

    The same predictor over the rationals, where no operation rounds: the
    behaviour that single precision approximates. *)

Module Exact.

Import Flow.

Local Open Scope Qc_scope.

Definition Qc_gtb (a b : Qc) : bool :=
  match a ?= b with
  | Gt => true
  | _ => false
  end.

#[export] Instance rational : Scalar Qc := {|
  s_zero := 0;
  s_one := 1;
  s_add := Qcplus;
  s_mul := Qcmult;
  s_div := Qcdiv;
  s_gtb := Qc_gtb
|}.

(** A pinhole camera matrix and its inverse. *)
Definition pinhole (fx fy cx cy : Qc) : Matx33f Qc :=
  mkMatx33f (mkVec3f fx 0 cx) (mkVec3f 0 fy cy) (mkVec3f 0 0 1).

Definition pinhole_inverse (fx fy cx cy : Qc) : Matx33f Qc :=
  mkMatx33f (mkVec3f (1 / fx) 0 (- (cx / fx))) (mkVec3f 0 (1 / fy) (- (cy / fy)))
            (mkVec3f 0 0 1).

(** Rotations as their matrices. *)
Definition Rot3_to_cv (r : Matx33f Qc) : Matx33f Qc := r.

End Exact.

(** ** Tracker.h: removal of outliers

    [Tracker.h] declares [removeOutliersMono] and [findOutliers]; their
    bodies are in [Tracker.cpp]. *)

Module Tracker.

Local Open Scope Z_scope.

(** Modelled from the spec: [Frame] is "an ordered sequence of 2D
    keypoints with per-keypoint landmark identifiers (-1 = unassigned)";
    the keypoint type is left open. *)
Record Frame (Kp : Type) := mkFrame {
  keypoints_ : list Kp;
  landmarks_ : list Z
}.
Arguments mkFrame {Kp}.
Arguments keypoints_ {Kp}.
Arguments landmarks_ {Kp}.

(** Modelled from the spec: [DebugTrackerInfo], of which
    [removeOutliersMono] "records the iteration count used for
    diagnostics". *)
Record DebugTrackerInfo := mkDebug { monoRansacIters_ : Z }.

Definition unassigned : Z := -1.

(** Modelled from the spec: [Tracker::findOutliers], missing from the
    sources: the "complement of an inlier index set against the full match
    list", "order-preserving w.r.t. the input match list". *)
Definition findOutliers {M : Type} (matches_ref_cur : list M) (inliers : list Z)
  : list nat :=
  filter (fun i => Z.of_nat i ∉ inliers) (seq 0 (length matches_ref_cur)).

Section RemoveOutliers.

Context {Kp : Type}.

(** Modelled from the spec: to "invalidate (unassign landmark id on)" the
    keypoint [i] of a frame.  An index past the end of the frame names no
    keypoint, and nothing changes. *)
Definition invalidate (i : nat) (f : Frame Kp) : Frame Kp :=
  {| keypoints_ := keypoints_ f; landmarks_ := <[i := unassigned]> (landmarks_ f) |}.

(** Modelled from the spec: what is done for one outlier match [i], "in
    both frames symmetrically". *)
Definition remove_match (matches_ref_cur : list (nat * nat))
    (frames : Frame Kp * Frame Kp) (i : nat) : Frame Kp * Frame Kp :=
  match matches_ref_cur !! i with
  | Some (i_ref, i_cur) => (invalidate i_ref (fst frames), invalidate i_cur (snd frames))
  | None => frames
  end.

(** Modelled from the spec: [Tracker::removeOutliersMono], missing from
    the sources: "given the match list and the RANSAC inlier index set,
    invalidate (unassign landmark id on) every matched keypoint not in the
    inlier set, in both frames symmetrically; also records the iteration
    count used for diagnostics".  The state is the two frames and the
    tracker's debug info. *)
Definition removeOutliersMono
    (state : Frame Kp * Frame Kp * DebugTrackerInfo)
    (matches_ref_cur : list (nat * nat)) (inliers : list Z) (iterations : Z)
  : Frame Kp * Frame Kp * DebugTrackerInfo :=
  let outliers := findOutliers matches_ref_cur inliers in
  (fold_left (remove_match matches_ref_cur) outliers (fst state),
   {| monoRansacIters_ := iterations |}).

End RemoveOutliers.

End Tracker.

(** * Properties *)

(** ** Comparison of IEEE-754 values *)

Module IEEEFacts.

Import IEEE.

Local Open Scope Z_scope.

(** Case analysis on every exponent and mantissa comparison in sight. *)
Ltac split_compare :=
  repeat match goal with
    | H : context [Z.compare ?a ?b] |- _ => destruct (Z.compare_spec a b)
    | |- context [Z.compare ?a ?b] => destruct (Z.compare_spec a b)
    | H : context [Pos.compare_cont Eq ?a ?b] |- _ =>
        change (Pos.compare_cont Eq a b) with (Pos.compare a b) in *;
        destruct (Pos.compare_spec a b)
    | |- context [Pos.compare_cont Eq ?a ?b] =>
        change (Pos.compare_cont Eq a b) with (Pos.compare a b) in *;
        destruct (Pos.compare_spec a b)
    end.

Ltac by_cases_on_floats :=
  simpl in *; repeat match goal with s : bool |- _ => destruct s end;
  simpl in *; try discriminate; try reflexivity;
  split_compare; simpl in *; subst; try discriminate; try reflexivity; try lia.

Lemma SFcompare_swap (x y : spec_float) :
  SFcompare y x = option_opp (SFcompare x y).
Proof. destruct x, y; by_cases_on_floats. Qed.

Lemma SFcompare_refl (x : spec_float) :
  SFcompare x x = if is_nan x then None else Some Eq.
Proof. destruct x; by_cases_on_floats. Qed.

Lemma SFcompare_total (x y : spec_float) :
  is_nan x = false -> is_nan y = false -> exists c, SFcompare x y = Some c.
Proof. destruct x, y; simpl; intros; try discriminate; eauto. Qed.

Lemma SFcompare_Lt_trans (x y z : spec_float) :
  SFcompare x y = Some Lt -> SFcompare y z = Some Lt -> SFcompare x z = Some Lt.
Proof. destruct x, y, z; intros Hxy Hyz; by_cases_on_floats. Qed.

Lemma SFcompare_Eq_trans (x y z : spec_float) :
  SFcompare x y = Some Eq -> SFcompare y z = Some Eq -> SFcompare x z = Some Eq.
Proof. destruct x, y, z; intros Hxy Hyz; by_cases_on_floats. Qed.

Lemma ltb_Lt (x y : spec_float) : ltb x y = true <-> SFcompare x y = Some Lt.
Proof.
  unfold ltb, SFltb. destruct (SFcompare x y) as [[]|]; split; congruence.
Qed.

Lemma ltb_gtb (x y : spec_float) : ltb x y = gtb y x.
Proof.
  unfold ltb, SFltb, gtb. rewrite (SFcompare_swap x y).
  destruct (SFcompare x y) as [[]|]; reflexivity.
Qed.

Lemma ltb_irrefl (x : spec_float) : ltb x x = false.
Proof.
  unfold ltb, SFltb. rewrite SFcompare_refl. destruct (is_nan x); reflexivity.
Qed.

Lemma ltb_asym (x y : spec_float) : ltb x y = true -> ltb y x = false.
Proof.
  unfold ltb, SFltb. rewrite (SFcompare_swap x y).
  destruct (SFcompare x y) as [[]|]; simpl; congruence.
Qed.

Lemma ltb_trans (x y z : spec_float) :
  ltb x y = true -> ltb y z = true -> ltb x z = true.
Proof. rewrite !ltb_Lt. apply SFcompare_Lt_trans. Qed.

(** Two values that are not NaN and unordered by [<] compare equal. *)
Lemma unordered_Eq (x y : spec_float) :
  is_nan x = false -> is_nan y = false ->
  ltb x y = false -> ltb y x = false -> SFcompare x y = Some Eq.
Proof.
  intros Hx Hy. destruct (SFcompare_total x y Hx Hy) as [c Hc].
  unfold ltb, SFltb. rewrite (SFcompare_swap x y), Hc.
  destruct c; simpl; congruence.
Qed.

Lemma Eq_unordered (x y : spec_float) :
  SFcompare x y = Some Eq -> ltb x y = false /\ ltb y x = false.
Proof.
  intros Hc. unfold ltb, SFltb. rewrite (SFcompare_swap x y), Hc. auto.
Qed.

End IEEEFacts.

(** ** LoopResult and MatchIsland *)

Module LCDFacts.

Import LCD.

Local Open Scope Z_scope.

(** C6. [isLoop()] is true exactly when [status_] is [LOOP_DETECTED]; over
    the eight statuses in declaration order it is true for the first and
    false for the seven others, whatever the ids and the pose. *)
Theorem isLoop_iff_LOOP_DETECTED :
  forall (Pose3 : Type) (r : LoopResult Pose3),
    (isLoop r = true <-> status_ r = LOOP_DETECTED) /\
    (forall (q m : FrameId) (p : Pose3),
        map (fun s => isLoop (mkLoopResult s q m p)) all_LCDStatus
        = [true; false; false; false; false; false; false; false]).
Proof.
  intros Pose3 r. split.
  - unfold isLoop, LCDStatus_eqb. rewrite Z.eqb_eq.
    destruct (status_ r); simpl; split; intros E; congruence.
  - reflexivity.
Qed.

Lemma size_mod (m : MatchIsland) :
  size m = (end_id_ m - start_id_ m + 1) mod uint64_modulus.
Proof.
  unfold size, wrap64. rewrite Zplus_mod_idemp_l. reflexivity.
Qed.

Lemma reachable_ok (m : MatchIsland) :
  reachable m -> FrameId_ok (start_id_ m) /\ FrameId_ok (end_id_ m).
Proof.
  assert (H0 : FrameId_ok 0) by (unfold FrameId_ok, uint64_modulus; lia).
  induction 1; simpl; auto.
Qed.

(** C4, as stated, fails: the two-argument constructor stores its
    arguments unchecked, so [MatchIsland(5, 2)] has [end_id_ < start_id_],
    and its [size()] is [2^64 - 2] whereas [end_id_ - start_id_ + 1] is
    [-2]. *)
Lemma MatchIsland_range_5_2 :
  reachable (MatchIsland_range 5 2) /\
  end_id_ (MatchIsland_range 5 2) < start_id_ (MatchIsland_range 5 2) /\
  size (MatchIsland_range 5 2) = 18446744073709551614 /\
  end_id_ (MatchIsland_range 5 2) - start_id_ (MatchIsland_range 5 2) + 1 = -2.
Proof.
  split; [| split; [| split]]; try reflexivity.
  constructor; unfold FrameId_ok, uint64_modulus; lia.
Qed.

(** C4, amended.  For an island built by the constructors and [clear()]:
    both ids are 64-bit values and [size()] is [end_id_ - start_id_ + 1]
    reduced modulo [2^64]; this is exactly [end_id_ - start_id_ + 1] when
    [start_id_ <= end_id_] and the range is not all of [0 .. 2^64 - 1],
    and [2^64] more than it when [end_id_ + 1 < start_id_]; after [clear()],
    as after the default constructor, [start_id_ = end_id_ = 0] and
    [size()] is [1]; the other two constructors store [start] and [end] as
    they are given. *)
Theorem MatchIsland_size :
  forall m : MatchIsland,
    reachable m ->
    (FrameId_ok (start_id_ m) /\ FrameId_ok (end_id_ m)) /\
    size m = (end_id_ m - start_id_ m + 1) mod uint64_modulus /\
    (start_id_ m <= end_id_ m ->
     end_id_ m - start_id_ m + 1 < uint64_modulus ->
     size m = end_id_ m - start_id_ m + 1) /\
    (end_id_ m + 1 < start_id_ m ->
     size m = end_id_ m - start_id_ m + 1 + uint64_modulus) /\
    (start_id_ (clear m) = 0 /\ end_id_ (clear m) = 0 /\ size (clear m) = 1) /\
    (start_id_ MatchIsland_default = 0 /\ end_id_ MatchIsland_default = 0 /\
     size MatchIsland_default = 1) /\
    (forall (start end_ : FrameId) (score : IEEE.double),
        start_id_ (MatchIsland_range start end_) = start /\
        end_id_ (MatchIsland_range start end_) = end_ /\
        start_id_ (MatchIsland_scored start end_ score) = start /\
        end_id_ (MatchIsland_scored start end_ score) = end_).
Proof.
  intros m Hm. destruct (reachable_ok m Hm) as [Hs He].
  split; [split; assumption |].
  split; [apply size_mod |]. split; [| split].
  - intros Hle Hlt. rewrite size_mod. apply Z.mod_small. lia.
  - intros Hlt. rewrite size_mod. unfold FrameId_ok in *.
    symmetry. apply (Z.mod_unique _ _ (-1)); lia.
  - repeat split; reflexivity.
Qed.

(** The amended C4 at [MatchIsland(3, 7)], whose size is [5]. *)
Lemma MatchIsland_size_3_7 :
  reachable (MatchIsland_range 3 7) /\ size (MatchIsland_range 3 7) = 5.
Proof.
  assert (R : reachable (MatchIsland_range 3 7)).
  { constructor; unfold FrameId_ok, uint64_modulus; lia. }
  split; [exact R |].
  destruct (MatchIsland_size (MatchIsland_range 3 7) R) as (_ & _ & Hexact & _).
  apply Hexact; simpl; unfold uint64_modulus; lia.
Defined.

(** Both operators read nothing but [island_score_]. *)
Lemma compare_by_score (a b a' b' : MatchIsland) :
  island_score_ a = island_score_ a' -> island_score_ b = island_score_ b' ->
  lt a b = lt a' b' /\ gt a b = gt a' b'.
Proof. unfold lt, gt. intros -> ->. auto. Qed.

Lemma lt_irreflexive : irreflexive_lt.
Proof. intros a. apply IEEEFacts.ltb_irrefl. Qed.

Lemma lt_asymmetric : asymmetric_lt.
Proof. intros a b. apply IEEEFacts.ltb_asym. Qed.

Lemma lt_transitive : transitive_lt.
Proof. intros a b c. apply IEEEFacts.ltb_trans. Qed.

Lemma lt_converse_gt : converse_lt_gt.
Proof. intros a b. apply IEEEFacts.ltb_gtb. Qed.

Lemma incomparable_transitive_not_nan (a b c : MatchIsland) :
  score_not_nan a -> score_not_nan b -> score_not_nan c ->
  incomparable a b -> incomparable b c -> incomparable a c.
Proof.
  unfold score_not_nan, incomparable, lt. intros Ha Hb Hc [H1 H2] [H3 H4].
  apply IEEEFacts.Eq_unordered.
  apply (IEEEFacts.SFcompare_Eq_trans _ (island_score_ b));
    apply IEEEFacts.unordered_Eq; assumption.
Qed.

(** C5, as stated, fails on islands whose score is NaN: the island with
    score NaN is unordered with those of score 1 and 2, which are ordered,
    so [<] is not a strict weak order and does not rank the three. *)
Lemma MatchIsland_nan_unordered :
  (incomparable island_one island_nan /\
   incomparable island_nan island_two /\
   lt island_one island_two = true) /\
  ~ strict_weak_order.
Proof.
  assert (H : incomparable island_one island_nan /\
              incomparable island_nan island_two /\
              lt island_one island_two = true).
  { repeat split; reflexivity. }
  split; [exact H |].
  destruct H as (H1 & H2 & H3). intros (_ & _ & _ & Htr).
  destruct (Htr _ _ _ H1 H2) as [E _]. congruence.
Qed.

(** C5, amended.  [operator<] and [operator>] compare by [island_score_]
    alone; [<] is irreflexive, asymmetric and transitive, and [a < b]
    holds exactly when [b > a], for all islands; on islands whose score is
    not NaN, being unordered is transitive, so that [<] is a strict weak
    order there and ranks them by score. *)
Theorem MatchIsland_order :
  (forall a b a' b',
      island_score_ a = island_score_ a' -> island_score_ b = island_score_ b' ->
      lt a b = lt a' b' /\ gt a b = gt a' b') /\
  irreflexive_lt /\ asymmetric_lt /\ transitive_lt /\ converse_lt_gt /\
  (forall a b c,
      score_not_nan a -> score_not_nan b -> score_not_nan c ->
      incomparable a b -> incomparable b c -> incomparable a c) /\
  (forall a b,
      score_not_nan a -> score_not_nan b ->
      (lt a b = true \/ lt b a = true \/
       SFcompare (island_score_ a) (island_score_ b) = Some Eq)).
Proof.
  split; [exact compare_by_score |].
  split; [exact lt_irreflexive |].
  split; [exact lt_asymmetric |].
  split; [exact lt_transitive |].
  split; [exact lt_converse_gt |].
  split; [exact incomparable_transitive_not_nan |].
  intros a b Ha Hb.
  destruct (lt a b) eqn:Hab; [auto |].
  destruct (lt b a) eqn:Hba; [auto |].
  right; right. apply IEEEFacts.unordered_Eq; assumption.
Qed.

(** The amended C5 on islands whose scores are not NaN: three islands of
    score 1 are pairwise unordered, and each is below the island of
    score 2. *)
Lemma MatchIsland_order_scores_1_2 :
  incomparable island_one island_one_c /\
  (lt island_one island_two = true \/ lt island_two island_one = true \/
   SFcompare (island_score_ island_one) (island_score_ island_two) = Some Eq).
Proof.
  destruct MatchIsland_order as (_ & _ & _ & _ & _ & Hinc & Htot).
  split.
  - apply (Hinc island_one island_one_b island_one_c);
      try reflexivity; split; reflexivity.
  - apply Htot; reflexivity.
Defined.

(** *** Further properties of LoopResult and MatchIsland *)

(** X1. [asString] gives each of the eight statuses a string of its own:
    two statuses have the same string only if they are the same status,
    and no status has the empty string the function starts from. *)
Theorem asString_injective :
  (forall a b : LCDStatus, asString a = asString b <-> a = b) /\
  (forall a : LCDStatus, asString a <> String.EmptyString).
Proof.
  split.
  - intros a b. split; [| intros ->; reflexivity].
    destruct a, b; vm_compute; intros E; try reflexivity; discriminate E.
  - intros a. destruct a; vm_compute; discriminate.
Qed.

(** X2. On the underlying value, [asString] returns the empty string
    exactly when the value is that of no enumerator (below 0 or above 7):
    the [switch] has no [default] case. *)
Theorem asString_value_empty :
  forall v : Z, asString_value v = String.EmptyString <-> (v < 0 \/ 7 < v).
Proof.
  intros v. unfold asString_value.
  repeat match goal with
         | |- context [?a =? ?b] => destruct (Z.eqb_spec a b)
         end;
    simpl in *; split; intros E;
    try discriminate E; try reflexivity; try lia; exfalso; lia.
Qed.

(** X3. [isLoop()] agrees with the text [asString] gives the status: it is
    true exactly when that text is LOOP_DETECTED. *)
Theorem isLoop_iff_asString :
  forall (Pose3 : Type) (r : LoopResult Pose3),
    isLoop r = true <-> asString (status_ r) = asString LOOP_DETECTED.
Proof.
  intros Pose3 r. unfold isLoop, LCDStatus_eqb. rewrite Z.eqb_eq.
  destruct (status_ r); vm_compute; split; intros E;
    try reflexivity; discriminate E.
Qed.

Lemma size_cases (m : MatchIsland) :
  reachable m ->
  let d := end_id_ m - start_id_ m + 1 in
  (0 <= d < uint64_modulus /\ size m = d) \/
  (d = uint64_modulus /\ size m = 0) \/
  (d < 0 /\ size m = d + uint64_modulus).
Proof.
  intros Hm d. destruct (reachable_ok m Hm) as [Hs He].
  unfold FrameId_ok in *. rewrite size_mod. fold d.
  destruct (Z_lt_dec d 0) as [Hneg | Hpos].
  - right; right. split; [assumption |].
    symmetry. apply (Z.mod_unique _ _ (-1)); unfold d in *; lia.
  - destruct (Z.eq_dec d uint64_modulus) as [E | Hne].
    + right; left. split; [assumption |]. rewrite E. apply Z_mod_same_full.
    + left. assert (0 <= d < uint64_modulus) by (unfold d in *; lia).
      split; [assumption |]. apply Z.mod_small. assumption.
Qed.

(** X4. For an island built by the constructors and [clear()], [size()]
    is a 64-bit value; it is 1 exactly when [start_id_ = end_id_], and it
    is 0 exactly when [start_id_] is [end_id_ + 1] modulo [2^64] (which
    includes the full range [0 .. 2^64 - 1]). *)
Theorem MatchIsland_size_one_zero :
  forall m : MatchIsland,
    reachable m ->
    0 <= size m < uint64_modulus /\
    (size m = 1 <-> start_id_ m = end_id_ m) /\
    (size m = 0 <-> start_id_ m = (end_id_ m + 1) mod uint64_modulus).
Proof.
  intros m Hm. destruct (reachable_ok m Hm) as [Hs He].
  pose proof (size_cases m Hm) as Hc. cbv zeta in Hc.
  unfold FrameId_ok in *.
  assert (HM : 1 < uint64_modulus) by (unfold uint64_modulus; lia).
  assert (Hsucc : (end_id_ m + 1 < uint64_modulus /\
                   (end_id_ m + 1) mod uint64_modulus = end_id_ m + 1) \/
                  (end_id_ m + 1 = uint64_modulus /\
                   (end_id_ m + 1) mod uint64_modulus = 0)).
  { destruct (Z.eq_dec (end_id_ m + 1) uint64_modulus) as [E | Hne].
    - right. split; [assumption |]. rewrite E. apply Z_mod_same_full.
    - left. split; [lia |]. apply Z.mod_small. lia. }
  destruct Hc as [[Hd ->] | [[Hd ->] | [Hd ->]]];
    destruct Hsucc as [[H1 ->] | [H1 ->]]; lia.
Qed.

(** X4 on the single-frame island [MatchIsland(7, 7)]. *)
Lemma MatchIsland_size_one_zero_7_7 :
  0 <= size (MatchIsland_range 7 7) < uint64_modulus /\
  (size (MatchIsland_range 7 7) = 1 <->
   start_id_ (MatchIsland_range 7 7) = end_id_ (MatchIsland_range 7 7)) /\
  (size (MatchIsland_range 7 7) = 0 <->
   start_id_ (MatchIsland_range 7 7)
   = (end_id_ (MatchIsland_range 7 7) + 1) mod uint64_modulus).
Proof.
  apply (MatchIsland_size_one_zero (MatchIsland_range 7 7)).
  constructor; unfold FrameId_ok, uint64_modulus; lia.
Defined.

(** X5. Sizes of adjacent islands add up: splitting the range
    [start .. end] after [mid] gives two islands whose sizes sum to the
    size of the whole, as long as the whole is not all of
    [0 .. 2^64 - 1]. *)
Theorem MatchIsland_size_split :
  forall start mid end_ : FrameId,
    FrameId_ok start -> FrameId_ok end_ ->
    start <= mid -> mid < end_ ->
    end_ - start + 1 < uint64_modulus ->
    size (MatchIsland_range start end_)
    = size (MatchIsland_range start mid) + size (MatchIsland_range (mid + 1) end_).
Proof.
  intros start mid end_ Hs He Hsm Hme Hlt. unfold FrameId_ok in *.
  rewrite !size_mod. simpl.
  rewrite !Z.mod_small by lia. lia.
Qed.

(** X5 on the range 2 .. 9 split after 5. *)
Lemma MatchIsland_size_split_2_5_9 :
  size (MatchIsland_range 2 9)
  = size (MatchIsland_range 2 5) + size (MatchIsland_range 6 9).
Proof.
  apply (MatchIsland_size_split 2 5 9);
    unfold FrameId_ok, uint64_modulus; lia.
Defined.

(** X6. [operator>] is a strict partial order as well (irreflexive,
    asymmetric, transitive), and no island is both [<] and [>] another. *)
Theorem MatchIsland_gt_order :
  (forall a, gt a a = false) /\
  (forall a b, gt a b = true -> gt b a = false) /\
  (forall a b c, gt a b = true -> gt b c = true -> gt a c = true) /\
  (forall a b, lt a b = true -> gt a b = false).
Proof.
  repeat split.
  - intros a. rewrite <- lt_converse_gt. apply lt_irreflexive.
  - intros a b. rewrite <- !lt_converse_gt. apply lt_asymmetric.
  - intros a b c Hab Hbc. rewrite <- lt_converse_gt in *.
    exact (lt_transitive c b a Hbc Hab).
  - intros a b Hab. rewrite <- lt_converse_gt. apply lt_asymmetric, Hab.
Qed.

End LCDFacts.

(** ** Optical-flow predictors *)

Module FlowFacts.

Import Flow.

Section Generic.

Context {F : Type} `{Scalar F} {Rot3 : Type}.
Variable Rot3_to_cv : Rot3 -> Matx33f F.
Variable Rot3_default : Rot3.
Variable Matx_inv : Matx33f F -> Matx33f F.

Local Abbreviation Predictor := (RotationalOpticalFlowPredictor F Rot3).
Local Abbreviation predictFlow := (Rotational_predictFlow Rot3_to_cv).

(** C2. The static predictor leaves [*next_kps] equal to [prev_kps],
    element for element, whatever the vector held before, and returns
    [true]. *)
Theorem Silly_predictFlow_copies :
  forall (prev_kps old : KeypointsCV F),
    Silly_predictFlow prev_kps (PtrTo old) = Returned (prev_kps, true) /\
    Silly_predictFlow prev_kps PtrToPrev = Returned (prev_kps, true).
Proof. split; reflexivity. Qed.

Lemma vector_at_assign_lt {A} (v : list A) (i : nat) (e : A) :
  i < length v -> vector_at_assign v i e = Some (<[i := e]> v).
Proof. intros Hi. unfold vector_at_assign. case_decide; [reflexivity | lia]. Qed.

Lemma length_vector_resize {A} (d : A) (n : nat) (v : list A) :
  length (vector_resize d n v) = n.
Proof.
  unfold vector_resize. rewrite length_app, length_take, length_replicate. lia.
Qed.

(** The loop invariant: entries below [i] are final, and the remaining
    iterations fill in the predictions of [prev_kps] from [i] on.  No
    access is out of range. *)
Lemma predictFlow_loop_spec (Hm : Matx33f F) (prev_kps : KeypointsCV F) :
  forall (steps i : nat) (next_kps : KeypointsCV F),
    length next_kps = length prev_kps ->
    i + steps = length prev_kps ->
    predictFlow_loop Hm prev_kps steps i next_kps
    = Returned (take i next_kps ++ map (predict_keypoint Hm) (drop i prev_kps)).
Proof.
  induction steps as [| steps IH]; intros i next_kps Hlen Hi;
    cbn [predictFlow_loop]; unfold KeypointsCV in *.
  - rewrite take_ge, drop_ge by lia. simpl. rewrite app_nil_r. reflexivity.
  - destruct (lookup_lt_is_Some_2 prev_kps i) as [kp Hkp]; [lia |].
    rewrite Hkp, vector_at_assign_lt by lia.
    rewrite IH by (rewrite ?length_insert; lia).
    rewrite (take_S_r _ _ (predict_keypoint Hm kp))
      by (apply list_lookup_insert_eq; lia).
    rewrite take_insert_ge by lia.
    rewrite (drop_S _ _ _ Hkp). simpl. rewrite <- app_assoc. reflexivity.
Qed.

(** [predictFlow] in closed form. *)
Lemma predictFlow_map (self : Predictor) (prev_kps old : KeypointsCV F) :
  predictFlow self prev_kps (PtrTo old)
  = Returned (map (predict_keypoint (homography Rot3_to_cv self)) prev_kps, true).
Proof.
  unfold Rotational_predictFlow, predictFlow_cleared.
  rewrite predictFlow_loop_spec by (rewrite ?length_vector_resize; lia).
  rewrite take_0, drop_0. reflexivity.
Qed.

Lemma lookup_map {A B} (f : A -> B) (l : list A) (i : nat) :
  map f l !! i = f <$> l !! i.
Proof.
  revert i. induction l as [| a l IH]; intros [| i]; simpl; auto.
Qed.

Lemma after_calls_app (state : option Predictor) (cs cs' : list (call F Rot3)) :
  after_calls state (cs ++ cs') = after_calls (after_calls state cs) cs'.
Proof. apply fold_left_app. Qed.

(** Once the behaviour is undefined it stays so. *)
Lemma after_calls_None (cs : list (call F Rot3)) :
  after_calls (None : option Predictor) cs = None.
Proof. induction cs as [| c cs IH]; [reflexivity | exact IH]. Qed.

Lemma after_predicts (self : Predictor)
    (ps : list (KeypointsCV F * out_param (KeypointsCV F))) :
  after_calls (Some self) (map (fun p => CallPredict (fst p) (snd p)) ps)
  = Some self.
Proof. induction ps as [| p ps IH]; [reflexivity | exact IH]. Qed.

(** While the behaviour is defined the predictor is the one the calls
    started from. *)
Lemma after_calls_Some (self self' : Predictor) (cs : list (call F Rot3)) :
  after_calls (Some self) cs = Some self' -> self' = self.
Proof.
  induction cs as [| c cs IH]; simpl.
  - congruence.
  - destruct c as [rotation | prev_kps next_kps]; simpl.
    + rewrite after_calls_None. discriminate.
    + exact IH.
Qed.

(** C1. On a predictor constructed from [K], whatever rotation it holds,
    [predictFlow] (given a vector other than [prev_kps] to write to)
    returns [true] and a list [next] such that, with
    [H = K * R * K.inv()] for the rotation [R] it holds, every previous
    keypoint [(x, y)] lifted to [p1 = (x, y, 1)] and mapped to
    [p2 = H * p1] is predicted at [(p2[0] / p2[2], p2[1] / p2[2])] when
    [p2[2] > 0], and at [(x, y)] itself when [p2[2] > 0] is false. *)
Theorem Rotational_predictFlow_homography :
  forall (K : Matx33f F) (rotation : Rot3) (prev_kps old : KeypointsCV F),
    let self := mkRotational K (Matx_inv K) rotation in
    let R := Rot3_to_cv (inter_frame_rotation_ self) in
    let Hm := Matx_mul (Matx_mul K R) (Matx_inv K) in
    exists next : KeypointsCV F,
      predictFlow self prev_kps (PtrTo old) = Returned (next, true) /\
      forall (i : nat) (kp : Point2f F),
        prev_kps !! i = Some kp ->
        let p2 := Matx_mul_Vec Hm (mkVec3f (x kp) (y kp) s_one) in
        (s_gtb (v2 p2) s_zero = true ->
         next !! i = Some (mkPoint2f (s_div (v0 p2) (v2 p2)) (s_div (v1 p2) (v2 p2)))) /\
        (s_gtb (v2 p2) s_zero = false -> next !! i = Some kp).
Proof.
  intros K rotation prev_kps old self R Hm.
  assert (EH : homography Rot3_to_cv self = Hm) by reflexivity.
  eexists. split; [apply predictFlow_map |].
  unfold KeypointsCV in *. cbv zeta.
  intros i kp Hkp. rewrite lookup_map, Hkp, EH.
  unfold predict_keypoint, lift. cbn [fmap option_fmap option_map].
  split; intros ->; reflexivity.
Qed.

(** C9. Given a vector other than [prev_kps] to write to, [predictFlow]
    returns (no check fails and no access is out of range), the value
    returned is [true], and the
    output holds one keypoint per input keypoint, the one at index [i]
    being the prediction for the input keypoint at index [i]; on the empty
    list the output is empty. *)
Theorem Rotational_predictFlow_total :
  forall (self : Predictor) (prev_kps old : KeypointsCV F),
    (exists next : KeypointsCV F,
        predictFlow self prev_kps (PtrTo old) = Returned (next, true) /\
        length next = length prev_kps /\
        forall i : nat,
          next !! i = predict_keypoint (homography Rot3_to_cv self) <$> prev_kps !! i) /\
    predictFlow self [] (PtrTo old) = Returned ([], true).
Proof.
  intros self prev_kps old. split; [| apply predictFlow_map].
  eexists. split; [apply predictFlow_map |]. split.
  - apply length_map.
  - intros i. unfold KeypointsCV in *. apply lookup_map.
Qed.

(** Called with [next_kps] pointing to [prev_kps] itself, the rotational
    predictor clears the vector before reading it: it returns [true] and
    leaves the vector empty. *)
Lemma predictFlow_on_prev_itself (self : Predictor) (prev_kps : KeypointsCV F) :
  predictFlow self prev_kps PtrToPrev = Returned ([], true).
Proof. reflexivity. Qed.

(** C7: the code on calls that include an update.  The body of
    [updateInterFrameRotation] overwrites the one rotation member with its
    argument and keeps the camera matrices, so that of two updates the
    later would win; but the call ends without a [return], so after any
    sequence of calls that includes an update the behaviour is undefined
    and no predictor state is left for the next [predictFlow] to use.
    Only [predictFlow] calls leave the predictor defined, and unchanged. *)
Theorem update_call_undefined :
  forall (self : Predictor) (cs cs' : list (call F Rot3)) (r r' : Rot3)
         (ps : list (KeypointsCV F * out_param (KeypointsCV F))),
    fst (updateInterFrameRotation (fst (updateInterFrameRotation self r')) r)
    = mkRotational (K_ self) (K_inverse_ self) r /\
    snd (updateInterFrameRotation self r) = None /\
    after_calls (Some self) (cs ++ CallUpdate r :: cs') = None /\
    after_calls (Some self) (map (fun p => CallPredict (fst p) (snd p)) ps)
    = Some self.
Proof.
  intros self cs cs' r r' ps.
  split; [reflexivity |]. split; [reflexivity |]. split; [| apply after_predicts].
  rewrite after_calls_app.
  destruct (after_calls (Some self) cs) as [self' |]; simpl;
    apply after_calls_None.
Qed.

(** C10: the code at every rotation.  [updateInterFrameRotation] stores
    the rotation and yields no return value. *)
Theorem updateInterFrameRotation_returns_nothing :
  forall (self : Predictor) (rotation : Rot3),
    snd (updateInterFrameRotation self rotation) = None /\
    inter_frame_rotation_ (fst (updateInterFrameRotation self rotation)) = rotation.
Proof. intros self rotation. split; reflexivity. Qed.

(** With the identity rotation set, if [K_ * R * K_inverse_] evaluates to
    the identity matrix, [1 > 0] holds, and every keypoint is left
    unchanged by the product with the identity matrix and by the division
    by [1], the rotational predictor returns the list it was given. *)
Lemma predictFlow_like_static
    (self : Predictor) (prev_kps old : KeypointsCV F) :
  Rot3_to_cv (inter_frame_rotation_ self) = Matx_eye ->
  Matx_mul (Matx_mul (K_ self) Matx_eye) (K_inverse_ self) = Matx_eye ->
  s_gtb s_one s_zero = true ->
  Forall (fun kp => Matx_mul_Vec Matx_eye (lift kp) = lift kp /\
                    s_div (x kp) s_one = x kp /\ s_div (y kp) s_one = y kp)
         prev_kps ->
  predictFlow self prev_kps (PtrTo old) = Silly_predictFlow prev_kps (PtrTo old).
Proof.
  intros Hrot Heye Hpos Hkps.
  rewrite predictFlow_map. unfold Silly_predictFlow. do 2 f_equal.
  unfold homography. rewrite Hrot, Heye.
  induction Hkps as [| kp kps (Hmul & Hx & Hy) _ IH]; [reflexivity |].
  simpl. rewrite IH. f_equal.
  unfold predict_keypoint. rewrite Hmul. simpl. rewrite Hpos, Hx, Hy.
  destruct kp; reflexivity.
Qed.

(** C3, amended.  Whatever the rotation, the rotational predictor returns
    [true] and as many keypoints as the static predictor.  With the
    identity rotation set, if [K_ * R * K_inverse_] evaluates to the
    identity matrix exactly, [1 > 0] holds, and every keypoint is left
    unchanged by the product with the identity matrix and by the division
    by [1], then it also returns the same list as the static predictor. *)
Theorem identity_rotation_as_static :
  forall (self : Predictor) (prev_kps old : KeypointsCV F),
    (exists next : KeypointsCV F,
        predictFlow self prev_kps (PtrTo old) = Returned (next, true) /\
        Silly_predictFlow prev_kps (PtrTo old) = Returned (prev_kps, true) /\
        length next = length prev_kps) /\
    (Rot3_to_cv (inter_frame_rotation_ self) = Matx_eye ->
     Matx_mul (Matx_mul (K_ self) Matx_eye) (K_inverse_ self) = Matx_eye ->
     s_gtb s_one s_zero = true ->
     Forall (fun kp => Matx_mul_Vec Matx_eye (lift kp) = lift kp /\
                       s_div (x kp) s_one = x kp /\ s_div (y kp) s_one = y kp)
            prev_kps ->
     predictFlow self prev_kps (PtrTo old) = Silly_predictFlow prev_kps (PtrTo old)).
Proof.
  intros self prev_kps old. split.
  - eexists. split; [apply predictFlow_map |]. split; [reflexivity |].
    apply length_map.
  - apply predictFlow_like_static.
Qed.

(** *** Further properties of the predictors *)

Local Abbreviation AnyPredictor := (OpticalFlowPredictor F Rot3).

(** The virtual [predictFlow] in closed form: each variant maps one
    function over the keypoints. *)
Lemma virtual_predictFlow_map (p : AnyPredictor) (prev_kps old : KeypointsCV F) :
  virtual_predictFlow Rot3_to_cv p prev_kps (PtrTo old)
  = Returned (map (predict_with Rot3_to_cv p) prev_kps, true).
Proof.
  destruct p as [| self]; simpl.
  - rewrite map_id. reflexivity.
  - apply predictFlow_map.
Qed.

(** X7. The factory yields a predictor exactly for the types [kStatic] and
    [kRotational] (any other value ends in the fatal log), and whichever
    predictor it yields, [predictFlow] on it returns [true] with one
    keypoint per input keypoint; the one made for [kStatic] returns the
    input list itself, whatever the camera matrix. *)
Theorem makeOpticalFlowPredictor_predicts :
  forall (type : Z) (K : Matx33f F),
    (is_Some (makeOpticalFlowPredictor Rot3_default Matx_inv type K)
     <-> type = kStatic \/ type = kRotational) /\
    (forall p : AnyPredictor,
        makeOpticalFlowPredictor Rot3_default Matx_inv type K = Some p ->
        forall prev_kps old : KeypointsCV F,
          (exists next : KeypointsCV F,
              virtual_predictFlow Rot3_to_cv p prev_kps (PtrTo old)
              = Returned (next, true) /\
              length next = length prev_kps) /\
          (type = kStatic ->
           virtual_predictFlow Rot3_to_cv p prev_kps (PtrTo old)
           = Returned (prev_kps, true))).
Proof.
  intros type K. unfold makeOpticalFlowPredictor, kStatic, kRotational.
  destruct (Z.eqb_spec type 0) as [E0 | N0];
    [| destruct (Z.eqb_spec type 1) as [E1 | N1]].
  - split; [split; [auto | eauto] |].
    intros p [= <-] prev_kps old. split; [| reflexivity].
    eexists. split; [reflexivity | reflexivity].
  - split; [split; [auto | eauto] |].
    intros p [= <-] prev_kps old. split; [| intros ->; discriminate].
    eexists. split; [apply virtual_predictFlow_map | apply length_map].
  - split; [| discriminate].
    split; [intros [p Hp]; discriminate | intros [-> | ->]; congruence].
Qed.

(** X8. Keypoints are predicted independently of one another: on either
    predictor, the prediction for a concatenated list is the
    concatenation of the predictions for its parts. *)
Theorem predictFlow_app :
  forall (p : AnyPredictor) (kps1 kps2 old : KeypointsCV F),
    exists next1 next2 : KeypointsCV F,
      virtual_predictFlow Rot3_to_cv p kps1 (PtrTo old) = Returned (next1, true) /\
      virtual_predictFlow Rot3_to_cv p kps2 (PtrTo old) = Returned (next2, true) /\
      virtual_predictFlow Rot3_to_cv p (kps1 ++ kps2) (PtrTo old)
      = Returned (next1 ++ next2, true).
Proof.
  intros p kps1 kps2 old. do 2 eexists.
  rewrite !virtual_predictFlow_map, map_app. auto.
Qed.

(** X9. What [*next_kps] held before the call has no effect on either
    predictor: two calls on the same keypoints end alike whatever vectors
    they are given to write to, longer or shorter than the input. *)
Theorem predictFlow_discards_old :
  forall (p : AnyPredictor) (prev_kps old1 old2 : KeypointsCV F),
    virtual_predictFlow Rot3_to_cv p prev_kps (PtrTo old1)
    = virtual_predictFlow Rot3_to_cv p prev_kps (PtrTo old2).
Proof.
  intros p prev_kps old1 old2. rewrite !virtual_predictFlow_map. reflexivity.
Qed.

(** If the depth component is positive for no keypoint, the rotational
    predictor returns the keypoints it was given. *)
Lemma predictFlow_all_kept (self : Predictor) (prev_kps old : KeypointsCV F) :
  Forall (fun kp =>
            s_gtb (v2 (Matx_mul_Vec (homography Rot3_to_cv self) (lift kp))) s_zero
            = false) prev_kps ->
  predictFlow self prev_kps (PtrTo old) = Returned (prev_kps, true).
Proof.
  intros Hall. rewrite predictFlow_map. do 2 f_equal.
  induction Hall as [| kp kps Hkp _ IH]; [reflexivity |].
  simpl. rewrite IH. f_equal. unfold predict_keypoint. rewrite Hkp. reflexivity.
Qed.

End Generic.

(** *** Single precision *)

Import Single.

(** A freshly constructed predictor holds the identity rotation. *)
Lemma with_identity_new (K : Matx33f float) : with_identity (new K) = new K.
Proof. reflexivity. Qed.

(** With fx = fy = 2 and cx = cy = 4, a quarter turn about the optical
    axis sends the keypoints (3, 5) and (4, 4) to (3, 3) and (4, 4): the
    depth component is 1 and the division is carried out. *)
Example predictFlow_quarter_turn :
  predictFlow (fst (updateInterFrameRotation (new K_dyadic) quarter_turn_z))
              [kp 3 5; kp 4 4] (PtrTo [kp 9 9])
  = Returned ([kp 3 3; kp 4 4], true).
Proof. vm_compute. reflexivity. Qed.

(** A half turn about the vertical axis puts every point behind the
    camera (depth component -1): the keypoints are kept. *)
Example predictFlow_half_turn :
  predictFlow (fst (updateInterFrameRotation (new K_dyadic) half_turn_y))
              [kp 3 5; kp 4 4] (PtrTo [])
  = Returned ([kp 3 5; kp 4 4], true).
Proof. vm_compute. reflexivity. Qed.

(** C3, as stated, fails in single precision.  For the EuRoC camera
    matrix, [K * R * K.inv()] with the identity rotation has [1 + 2^-23]
    at its top-left entry, and the keypoint (100, 200) is predicted at
    (100.0000153, 200), which is greater than 100 in the first coordinate,
    whereas the static predictor returns (100, 200). *)
Lemma identity_rotation_rounds :
  v0 (row0 (homography Rot3_to_cv (with_identity (new K_euroc))))
  = S754_finite false 8388609 (-23) /\
  predictFlow (with_identity (new K_euroc)) [kp 100 200] (PtrTo [])
  = Returned ([mkPoint2f above_100 (of_Z 200)], true) /\
  Silly_predictFlow [kp 100 200] (PtrTo []) = Returned ([kp 100 200], true) /\
  IEEE.gtb above_100 (of_Z 100) = true.
Proof. vm_compute. repeat split. Qed.

(** The same with the inverse of the camera matrix rounded entrywise to
    the nearest [float]: the keypoint moves to (99.9999924, 200). *)
Lemma identity_rotation_rounds_nearest_inverse :
  predictFlow
    (mkRotational K_euroc (pinhole_inverse_nearest K_euroc) Rot3_identity)
    [kp 100 200] (PtrTo [])
  = Returned ([mkPoint2f below_100 (of_Z 200)], true) /\
  IEEE.ltb below_100 (of_Z 100) = true.
Proof. vm_compute. split; reflexivity. Qed.

(** Nor does it depend on how the inverse is rounded: whichever of the
    [float]s next to [1/fx] and [-cx/fx] the stored inverse holds, the
    keypoint (100, 200) is moved. *)
Lemma identity_rotation_rounds_nearby_inverses :
  moved_for_all_nearby_inverses K_euroc = true.
Proof. vm_compute. reflexivity. Qed.

(** The amended C3 on a camera matrix whose inverse is exact
    (fx = fy = 2, cx = cy = 4), for the keypoints (3, 5) and (100, 200). *)
Lemma identity_rotation_as_static_dyadic :
  predictFlow (with_identity (new K_dyadic)) [kp 3 5; kp 100 200] (PtrTo [])
  = Silly_predictFlow [kp 3 5; kp 100 200] (PtrTo []).
Proof.
  apply (identity_rotation_as_static Rot3_to_cv (with_identity (new K_dyadic))).
  - vm_compute. reflexivity.
  - vm_compute. reflexivity.
  - vm_compute. reflexivity.
  - repeat constructor; vm_compute; reflexivity.
Defined.

(** *** Further properties in single precision *)

Lemma fmul_nan_r (a : float) : SFmul 24 128 a S754_nan = S754_nan.
Proof. destruct a; reflexivity. Qed.

Lemma fadd_nan_l (a : float) : SFadd 24 128 S754_nan a = S754_nan.
Proof. reflexivity. Qed.

Lemma fadd_nan_r (a : float) : SFadd 24 128 a S754_nan = S754_nan.
Proof. destruct a; reflexivity. Qed.

Lemma fmul_zero_r (a : float) (s : bool) :
  zero_or_nan (SFmul 24 128 a (S754_zero s)) = true.
Proof. destruct a; reflexivity. Qed.

Lemma fmul_zero_or_nan_l (h b : float) :
  zero_or_nan h = true -> zero_or_nan (SFmul 24 128 h b) = true.
Proof. destruct h, b; simpl; intros E; try discriminate E; reflexivity. Qed.

Lemma fadd_zero_or_nan (a b : float) :
  zero_or_nan a = true -> zero_or_nan b = true ->
  zero_or_nan (SFadd 24 128 a b) = true.
Proof.
  destruct a as [sa | | |], b as [sb | | |]; simpl; intros Ea Eb;
    try discriminate; try reflexivity.
  destruct sa, sb; reflexivity.
Qed.

Lemma gtb_zero_or_nan (a : float) :
  zero_or_nan a = true -> IEEE.gtb a (S754_zero false) = false.
Proof. destruct a; simpl; intros E; try discriminate E; reflexivity. Qed.

(** The depth component of a keypoint with a NaN coordinate is NaN. *)
Lemma depth_of_nan (H : Matx33f float) (p : Point2f float) :
  has_nan p = true -> v2 (Matx_mul_Vec H (lift p)) = S754_nan.
Proof.
  unfold has_nan, Matx_mul_Vec, lift, dot3. destruct p as [a b].
  cbn [v0 v1 v2 Flow.x Flow.y s_add s_mul s_zero s_one binary32].
  intros E. apply orb_true_iff in E as [E | E].
  - destruct a; try discriminate E.
    rewrite fmul_nan_r, fadd_nan_r. reflexivity.
  - destruct b; try discriminate E.
    rewrite fmul_nan_r, fadd_nan_r. reflexivity.
Qed.

(** X10. In single precision a keypoint with a NaN coordinate is never
    altered: whatever the camera matrix and the rotation, the prediction
    at its index is the keypoint itself. *)
Theorem predictFlow_keeps_nan :
  forall (self : Predictor) (prev_kps old : KeypointsCV float),
    exists next : KeypointsCV float,
      predictFlow self prev_kps (PtrTo old) = Returned (next, true) /\
      forall (i : nat) (p : Point2f float),
        prev_kps !! i = Some p -> has_nan p = true -> next !! i = Some p.
Proof.
  intros self prev_kps old. eexists. split; [apply predictFlow_map |].
  unfold KeypointsCV in *.
  intros i p Hp Hnan. rewrite lookup_map, Hp. cbn [fmap option_fmap option_map].
  f_equal. unfold predict_keypoint. rewrite (depth_of_nan _ p Hnan). reflexivity.
Qed.

(** X10 on the EuRoC camera matrix under a quarter turn, for the keypoint
    (NaN, 5) at index 1. *)
Lemma predictFlow_keeps_nan_euroc :
  exists next : KeypointsCV float,
    predictFlow (fst (updateInterFrameRotation (new K_euroc) quarter_turn_z))
                [kp 3 5; mkPoint2f S754_nan (of_Z 5)] (PtrTo [])
    = Returned (next, true) /\
    next !! 1%nat = Some (mkPoint2f S754_nan (of_Z 5)).
Proof.
  destruct (predictFlow_keeps_nan
              (fst (updateInterFrameRotation (new K_euroc) quarter_turn_z))
              [kp 3 5; mkPoint2f S754_nan (of_Z 5)] []) as (next & Hret & Hkept).
  exists next. split; [exact Hret |].
  apply Hkept; reflexivity.
Defined.

Lemma dot3_zeros (u : Vec3f float) :
  zero_or_nan (dot3 u (Vec fzero fzero fzero)) = true.
Proof.
  unfold dot3, Vec, fzero. cbn [v0 v1 v2 s_add s_mul s_zero binary32].
  repeat apply fadd_zero_or_nan; try apply fmul_zero_r; reflexivity.
Qed.

Lemma dot3_zero_or_nan (u p : Vec3f float) :
  zero_or_nan (v0 u) = true -> zero_or_nan (v1 u) = true ->
  zero_or_nan (v2 u) = true -> zero_or_nan (dot3 u p) = true.
Proof.
  intros H0 H1 H2. unfold dot3. cbn [s_add s_mul s_zero binary32].
  repeat apply fadd_zero_or_nan; try (apply fmul_zero_or_nan_l; assumption);
    reflexivity.
Qed.

(** X11. In single precision, when the stored inverse is the zero matrix
    (what [cv::Matx33f::inv()] gives for a matrix it cannot invert), the
    predictor returns every keypoint list unchanged, for every camera
    matrix, rotation and keypoint: each depth component is a zero or NaN,
    so every keypoint is kept. *)
Theorem predictFlow_zero_inverse :
  forall (K : Matx33f float) (rotation : Rot3) (prev_kps old : KeypointsCV float),
    predictFlow (mkRotational K Matx_zeros rotation) prev_kps (PtrTo old)
    = Returned (prev_kps, true).
Proof.
  intros K rotation prev_kps old.
  apply (predictFlow_all_kept Rot3_to_cv).
  apply Forall_forall. intros p _.
  apply gtb_zero_or_nan. unfold Matx_mul_Vec. cbn [v2].
  apply dot3_zero_or_nan; unfold homography, Matx_mul;
    cbn [K_inverse_ row2 v0 v1 v2]; apply dot3_zeros.
Qed.

(** A camera matrix whose determinant is computed as zero yields such a
    predictor. *)
Lemma singular_camera_matrix_kept
    (K : Matx33f float) (prev_kps old : KeypointsCV float) :
  SFeqb (determinant K) fzero = true ->
  predictFlow (new K) prev_kps (PtrTo old) = Returned (prev_kps, true).
Proof.
  intros Hdet. unfold new, Rotational_new, Matx_inv. rewrite Hdet.
  apply (predictFlow_all_kept Rot3_to_cv).
  apply Forall_forall. intros p _.
  apply gtb_zero_or_nan. unfold Matx_mul_Vec. cbn [v2].
  apply dot3_zero_or_nan; unfold homography, Matx_mul;
    cbn [K_inverse_ row2 v0 v1 v2]; apply dot3_zeros.
Qed.

(** X7 on the predictor made for [kRotational] from fx = fy = 2,
    cx = cy = 4. *)
Lemma makeOpticalFlowPredictor_predicts_dyadic :
  exists next : KeypointsCV float,
    virtual_predictFlow Rot3_to_cv (RotationalPredictor (new K_dyadic))
                        [kp 3 5; kp 4 4] (PtrTo [])
    = Returned (next, true) /\
    length next = length [kp 3 5; kp 4 4].
Proof.
  destruct (makeOpticalFlowPredictor_predicts Rot3_to_cv Rot3_identity Matx_inv
              kRotational K_dyadic) as [_ Hmade].
  destruct (Hmade (RotationalPredictor (new K_dyadic)) eq_refl
              [kp 3 5; kp 4 4] []) as [Hnext _].
  exact Hnext.
Defined.

(** *** Exact arithmetic *)

Import (hints) Exact.

(** Over the rationals the hypotheses of the amended C3 hold for every
    pinhole camera matrix with non-zero focal lengths and every keypoint:
    with the identity rotation the rotational predictor returns what the
    static predictor returns. *)
Lemma identity_rotation_exact (fx fy cx cy : Qc) (prev_kps old : KeypointsCV Qc) :
  fx <> 0%Qc -> fy <> 0%Qc ->
  Rotational_predictFlow Exact.Rot3_to_cv
    (mkRotational (Exact.pinhole fx fy cx cy) (Exact.pinhole_inverse fx fy cx cy)
                  Matx_eye)
    prev_kps (PtrTo old)
  = Silly_predictFlow prev_kps (PtrTo old).
Proof.
  intros Hfx Hfy.
  apply (predictFlow_like_static Exact.Rot3_to_cv).
  - reflexivity.
  - unfold Matx_mul, Matx_eye, Exact.pinhole, Exact.pinhole_inverse,
      dot3, col0, col1, col2; simpl.
    repeat f_equal; field; repeat split; assumption.
  - reflexivity.
  - apply Forall_forall. intros [a b] _.
    unfold Matx_mul_Vec, Matx_eye, lift, dot3; simpl.
    repeat split; try (repeat f_equal; ring); field; discriminate.
Qed.

End FlowFacts.

(** ** Removal of outliers *)

Module TrackerFacts.

Import Tracker.

(** A left fold of a step that commutes with itself and is idempotent is
    idempotent. *)
Section FoldIdempotent.

Context {S X : Type} (step : S -> X -> S).
Hypothesis step_comm : forall s i j, step (step s i) j = step (step s j) i.
Hypothesis step_idem : forall s i, step (step s i) i = step s i.

Lemma fold_left_step_out (l : list X) (s : S) (i : X) :
  fold_left step l (step s i) = step (fold_left step l s) i.
Proof.
  revert s. induction l as [| j l IH]; intros s; simpl; [reflexivity |].
  rewrite <- IH, step_comm. reflexivity.
Qed.

Lemma fold_left_idempotent (l : list X) (s : S) :
  fold_left step l (fold_left step l s) = fold_left step l s.
Proof.
  revert s. induction l as [| i l IH]; intros s; simpl; [reflexivity |].
  rewrite !fold_left_step_out, step_idem, IH. reflexivity.
Qed.

End FoldIdempotent.

Section RemoveOutliers.

Context {Kp : Type}.

Lemma invalidate_comm (i j : nat) (f : Frame Kp) :
  invalidate j (invalidate i f) = invalidate i (invalidate j f).
Proof.
  unfold invalidate. simpl. f_equal.
  destruct (decide (i = j)) as [-> | Hne]; [reflexivity |].
  apply list_insert_insert_ne. congruence.
Qed.

Lemma invalidate_idem (i : nat) (f : Frame Kp) :
  invalidate i (invalidate i f) = invalidate i f.
Proof. unfold invalidate. simpl. f_equal. apply list_insert_insert_eq. Qed.

Lemma remove_match_comm (ms : list (nat * nat)) (s : Frame Kp * Frame Kp) (i j : nat) :
  remove_match ms (remove_match ms s i) j = remove_match ms (remove_match ms s j) i.
Proof.
  unfold remove_match.
  destruct (ms !! i) as [[ir ic] |], (ms !! j) as [[jr jc] |]; simpl; try reflexivity.
  f_equal; apply invalidate_comm.
Qed.

Lemma remove_match_idem (ms : list (nat * nat)) (s : Frame Kp * Frame Kp) (i : nat) :
  remove_match ms (remove_match ms s i) i = remove_match ms s i.
Proof.
  unfold remove_match.
  destruct (ms !! i) as [[ir ic] |]; simpl; [| reflexivity].
  f_equal; apply invalidate_idem.
Qed.

(** C8. Applying [removeOutliersMono] a second time with the same match
    list, inlier set and iteration count leaves the two frames (and the
    debug info) as the first application left them. *)
Theorem removeOutliersMono_idempotent :
  forall (state : Frame Kp * Frame Kp * DebugTrackerInfo)
         (matches_ref_cur : list (nat * nat)) (inliers : list Z) (iterations : Z),
    removeOutliersMono
      (removeOutliersMono state matches_ref_cur inliers iterations)
      matches_ref_cur inliers iterations
    = removeOutliersMono state matches_ref_cur inliers iterations.
Proof.
  intros state ms inliers iterations. unfold removeOutliersMono. simpl.
  f_equal. apply fold_left_idempotent.
  - apply remove_match_comm.
  - apply remove_match_idem.
Qed.

End RemoveOutliers.

(** Four matches of which 0 and 2 are inliers: the keypoints of matches 1
    and 3 lose their landmark ids in both frames. *)
Example removeOutliersMono_run :
  removeOutliersMono
    (mkFrame [tt; tt; tt; tt] [10; 11; 12; 13]%Z,
     mkFrame [tt; tt; tt; tt; tt] [13; 12; 7; 11; 10]%Z,
     mkDebug 0)
    [(0, 4); (1, 3); (2, 1); (3, 0)] [0; 2]%Z 25
  = (mkFrame [tt; tt; tt; tt] [10; -1; 12; -1]%Z,
     mkFrame [tt; tt; tt; tt; tt] [-1; 12; 7; -1; 10]%Z,
     mkDebug 25).
Proof. vm_compute. reflexivity. Qed.

End TrackerFacts.
